(** * gmalg.ellipticcurve: affine curve arithmetic and the BN R-ate pairing

    A shallow embedding of [src/gmalg/ellipticcurve.py].  The field tower
    ([gmalg.primefield]) is a supplied capability: it enters every
    definition as a record of operations, never as code of this file. *)

From Stdlib Require Import ZArith List String Ascii Bool Lia.
Import ListNotations.
Local Open Scope Z_scope.

(** ** Python values handed to the field provider *)

(** The floats reachable from [float("inf")] by Python arithmetic. *)
Inductive pyfloat : Type := FInf | FNegInf | FNaN.

(** A value at one tower level: a field element of carrier [A], or a
    float (the coordinates of [EllipticCurve.INF]). *)
Inductive pyval (A : Type) : Type :=
| El (a : A)
| Fl (f : pyfloat).
Arguments El {A} a.
Arguments Fl {A} f.

Definition pyfloat_eq (f g : pyfloat) : bool :=
  match f, g with
  | FInf, FInf => true
  | FNegInf, FNegInf => true
  | _, _ => false
  end.

(** Structural equality of field elements, one instance per carrier. *)
Class ElemEq (A : Type) : Type := {
  elem_eqb : A -> A -> bool;
  elem_eqb_true : forall a b, elem_eqb a b = true <-> a = b
}.

#[export] Instance Z_ElemEq : ElemEq Z :=
  {| elem_eqb := Z.eqb; elem_eqb_true := Z.eqb_eq |}.

#[export] Instance pair_ElemEq {A B} `{ElemEq A} `{ElemEq B} : ElemEq (A * B).
Proof.
  refine {| elem_eqb := fun p q =>
              elem_eqb (fst p) (fst q) && elem_eqb (snd p) (snd q) |}.
  intros [a b] [c d]; simpl.
  rewrite andb_true_iff, !elem_eqb_true.
  split; [intros [-> ->]; reflexivity | intros E; inversion E; auto].
Defined.

(** Python's [==] on values: structural on elements, IEEE on floats (a
    NaN equals nothing), [False] between an element and a float. *)
Definition py_eq {A} `{ElemEq A} (v w : pyval A) : bool :=
  match v, w with
  | El a, El b => elem_eqb a b
  | Fl f, Fl g => pyfloat_eq f g
  | _, _ => false
  end.

Definition float_inf {A} : pyval A := Fl FInf.

(** ** Exceptions *)

Inductive exn : Type :=
| UnknownError          (* errors.UnknownError *)
| NotImplementedError
| TypeError.            (* subscripting a float *)

Inductive result (T : Type) : Type :=
| Ok (v : T)
| Raise (e : exn).
Arguments Ok {T} v.
Arguments Raise {T} e.

Definition bind {T U} (r : result T) (k : T -> result U) : result U :=
  match r with
  | Ok v => k v
  | Raise e => Raise e
  end.

Notation "x <- r ;; k" := (bind r (fun x => k))
  (at level 61, r at next level, right associativity).

(** ** The field-operations provider ([Fp.PrimeFieldBase]) *)

(** The operations [ellipticcurve.py] calls on a field object.  They are
    total on values, so an exception raised inside the provider (a
    [TypeError] on a float argument, an inverse of zero) has no
    counterpart here: the exceptions of this development are those that
    [ellipticcurve.py] raises itself, and a statement that a call returns
    is to be read up to the provider returning. *)
Record PrimeFieldBase (A : Type) : Type := {
  fp_zero : pyval A;
  fp_one : pyval A;
  fp_add : pyval A -> pyval A -> pyval A;
  fp_sub : pyval A -> pyval A -> pyval A;
  fp_neg : pyval A -> pyval A;
  fp_mul : pyval A -> pyval A -> pyval A;
  fp_smul : Z -> pyval A -> pyval A;
  fp_inv : pyval A -> pyval A;
  fp_pow : pyval A -> Z -> pyval A;
  fp_sqrt : pyval A -> pyval A;
  fp_isoppo : pyval A -> pyval A -> bool;
  fp_frob : pyval A -> pyval A
}.
Arguments fp_zero {A} _.
Arguments fp_one {A} _.
Arguments fp_add {A} _ _ _.
Arguments fp_sub {A} _ _ _.
Arguments fp_neg {A} _ _.
Arguments fp_mul {A} _ _ _.
Arguments fp_smul {A} _ _ _.
Arguments fp_inv {A} _ _.
Arguments fp_pow {A} _ _ _.
Arguments fp_sqrt {A} _ _.
Arguments fp_isoppo {A} _ _ _.
Arguments fp_frob {A} _ _.

(** ** Binary formatting: [f"{k:b}"] *)

Fixpoint pos_bits (p : positive) : list ascii :=
  match p with
  | xH => ["1"%char]
  | xO q => pos_bits q ++ ["0"%char]
  | xI q => pos_bits q ++ ["1"%char]
  end.

Definition format_b (k : Z) : list ascii :=
  match k with
  | Z0 => ["0"%char]
  | Zpos p => pos_bits p
  | Zneg p => "-"%char :: pos_bits p
  end.

(** [s[1:]] *)
Definition slice_from_1 (s : list ascii) : list ascii := tl s.

(** ** class EllipticCurve *)

Definition EcPoint (A : Type) : Type := (pyval A * pyval A)%type.

Definition INF {A} : EcPoint A := (float_inf, float_inf).

(** Tuple equality [P == Q]. *)
Definition pt_eq {A} `{ElemEq A} (P Q : EcPoint A) : bool :=
  py_eq (fst P) (fst Q) && py_eq (snd P) (snd Q).

Record EllipticCurve (A : Type) : Type := {
  ec_fp : PrimeFieldBase A;
  ec_a : pyval A;
  ec_b : pyval A
}.
Arguments ec_fp {A} _.
Arguments ec_a {A} _.
Arguments ec_b {A} _.

Section Curve.
Context {A : Type} `{ElemEq A}.
Variable ec : EllipticCurve A.

Let fp := ec_fp ec.

Definition get_y_sqr (x : pyval A) : pyval A :=
  fp_add fp (fp_pow fp x 3) (fp_add fp (fp_mul fp (ec_a ec) x) (ec_b ec)).

Definition get_y (x : pyval A) : pyval A :=
  fp_sqrt fp (get_y_sqr x).

Definition isvalid (P : EcPoint A) : bool :=
  let '(x, y) := P in
  py_eq (fp_mul fp y y) (get_y_sqr x).

Definition neg (P : EcPoint A) : EcPoint A :=
  let '(x, y) := P in
  (x, fp_neg fp y).

(** Lines 58-60: the third point from the slope [lam]. *)
Definition add_finish (x1 y1 x2 lam : pyval A) : result (EcPoint A) :=
  let x3 := fp_sub fp (fp_mul fp lam lam) (fp_add fp x1 x2) in
  let y3 := fp_sub fp (fp_mul fp lam (fp_sub fp x1 x3)) y1 in
  Ok (x3, y3).

Definition add (P1 P2 : EcPoint A) : result (EcPoint A) :=
  if pt_eq P1 INF then Ok P2
  else if pt_eq P2 INF then Ok P1
  else
    let '(x1, y1) := P1 in
    let '(x2, y2) := P2 in
    if py_eq x1 x2 then
      if fp_isoppo fp y1 y2 then Ok INF
      else if py_eq y1 y2 then
        let _t1 := fp_add fp (ec_a ec) (fp_smul fp 3 (fp_mul fp x1 x1)) in
        let _t2 := fp_inv fp (fp_smul fp 2 y1) in
        add_finish x1 y1 x2 (fp_mul fp _t1 _t2)
      else Raise UnknownError
    else
      add_finish x1 y1 x2
        (fp_mul fp (fp_sub fp y2 y1) (fp_inv fp (fp_sub fp x2 x1))).

Definition sub (P1 P2 : EcPoint A) : result (EcPoint A) :=
  add P1 (neg P2).

(** One turn of the loop of [mul] for the character [i]. *)
Definition mul_step (P : EcPoint A) (Q : EcPoint A) (i : ascii)
  : result (EcPoint A) :=
  Q <- add Q Q ;;
  if Ascii.eqb i "1" then add Q P else Ok Q.

Fixpoint mul_loop (P : EcPoint A) (Q : EcPoint A) (bits : list ascii)
  : result (EcPoint A) :=
  match bits with
  | [] => Ok Q
  | i :: rest => Q' <- mul_step P Q i ;; mul_loop P Q' rest
  end.

Definition mul (k : Z) (P : EcPoint A) : result (EcPoint A) :=
  mul_loop P P (slice_from_1 (format_b k)).

End Curve.

Arguments get_y_sqr {A} ec x.
Arguments get_y {A} ec x.
Arguments isvalid {A _} ec P.
Arguments neg {A} ec P.
Arguments add {A _} ec P1 P2.
Arguments sub {A _} ec P1 P2.
Arguments mul {A _} ec k P.

(** The test that leads [add] to its [raise]: both operands differ from
    [INF], the x-coordinates are equal, and the y-coordinates are neither
    opposite nor equal. *)
Definition add_raises {A} `{ElemEq A} (ec : EllipticCurve A)
    (P1 P2 : EcPoint A) : bool :=
  negb (pt_eq P1 INF) && negb (pt_eq P2 INF)
  && py_eq (fst P1) (fst P2)
  && negb (fp_isoppo (ec_fp ec) (snd P1) (snd P2))
  && negb (py_eq (snd P1) (snd P2)).

(** ** class ECDLP *)

Record ECDLP : Type := {
  dl_fp : PrimeFieldBase Z;
  dl_ec : EllipticCurve Z;
  dl_G : EcPoint Z;
  dl_fpn : PrimeFieldBase Z;
  dl_h : Z
}.

(** [PrimeField] stands for the constructor [Fp.PrimeField]. *)
Definition ECDLP_init (PrimeField : Z -> PrimeFieldBase Z)
    (p a b : Z) (G : EcPoint Z) (n h : Z) : ECDLP :=
  let fp := PrimeField p in
  {| dl_fp := fp;
     dl_ec := {| ec_fp := fp; ec_a := El a; ec_b := El b |};
     dl_G := G;
     dl_fpn := PrimeField n;
     dl_h := h |}.

Definition kG (d : ECDLP) (k : Z) : result (EcPoint Z) :=
  mul (dl_ec d) k (dl_G d).

(** ** class BNBIDH *)

Definition Fp2Ele : Type := (Z * Z)%type.
Definition Fp4Ele : Type := (Fp2Ele * Fp2Ele)%type.
Definition Fp12Ele : Type := (Fp4Ele * Fp4Ele * Fp4Ele)%type.

(** What [Fp.PrimeField12(p)] hands back: the three field objects the
    pairing engine reads ([fpk], [fpk.fp4.fp2], [fp2.fp]) and their
    [extend] methods.  The base-field operations are only applied to the
    integer components of tuples, so they are taken on [Z]. *)
Record Tower : Type := {
  tw_fpk : PrimeFieldBase Fp12Ele;
  tw_fp2 : PrimeFieldBase Fp2Ele;
  fp1_neg : Z -> Z;
  fp1_inv : Z -> Z;
  fp1_mul : Z -> Z -> Z;
  fp2_extend : Z -> pyval Fp2Ele;
  fpk_extend : pyval Z -> pyval Fp12Ele;
  (** [fpk.mul(f, g)] when [g] is the 2-tuple built by the vertical-line
      branch of [_g_fn]: not an Fp12 element, the outcome is the
      provider's. *)
  fpk_mul_pair : pyval Fp12Ele -> pyval Fp12Ele * pyval Fp12Ele
                 -> result (pyval Fp12Ele)
}.

Record BNBIDH : Type := {
  bn_t : Z;
  bn_p : Z;
  bn_n : Z;
  bn_tw : Tower;
  bn_ec2 : EllipticCurve Fp2Ele;
  bn_G1 : EcPoint Z;
  bn_G2 : EcPoint Fp2Ele;
  bn_a : Z;
  bn_neg2 : Z;
  bn_inv_neg2 : Z
}.

(** Lines 122-138: the object built once the gate on [beta] is passed. *)
Definition BNBIDH_build (PrimeField12 : Z -> Tower)
    (t b : Z) (beta : Fp2Ele) (G1 : EcPoint Z) (G2 : EcPoint Fp2Ele)
  : BNBIDH :=
  let p := 36 * t ^ 4 + 36 * t ^ 3 + 24 * t ^ 2 + 6 * t + 1 in
  let n := 36 * t ^ 4 + 36 * t ^ 3 + 18 * t ^ 2 + 6 * t + 1 in
  let tw := PrimeField12 p in
  let fp2 := tw_fp2 tw in
  let _neg2 := fp1_neg tw 2 in
  {| bn_t := t; bn_p := p; bn_n := n; bn_tw := tw;
     bn_ec2 := {| ec_fp := fp2; ec_a := fp_zero fp2;
                  ec_b := fp_mul fp2 (El beta) (fp2_extend tw b) |};
     bn_G1 := G1; bn_G2 := G2;
     bn_a := 6 * t + 2;
     bn_neg2 := _neg2;
     bn_inv_neg2 := fp1_inv tw _neg2 |}.

Definition BNBIDH_init (PrimeField12 : Z -> Tower)
    (t b : Z) (beta : Fp2Ele) (G1 : EcPoint Z) (G2 : EcPoint Fp2Ele)
  : result BNBIDH :=
  if negb (elem_eqb beta (1, 0)) then Raise NotImplementedError
  else Ok (BNBIDH_build PrimeField12 t b beta G1 G2).

(** What [_g_fn] returns: an Fp12 value, or the 2-tuple of line 154. *)
Inductive g_result : Type :=
| GElem (v : pyval Fp12Ele)
| GTuple (v w : pyval Fp12Ele).

Section Pairing.
Variable bn : BNBIDH.

Let fpk := tw_fpk (bn_tw bn).

Definition g_finish (xV yV xQ yQ lam : pyval Fp12Ele) : result g_result :=
  Ok (GElem (fp_sub fpk (fp_mul fpk lam (fp_sub fpk xQ xV))
                        (fp_sub fpk yQ yV))).

Definition _g_fn (U V Q : EcPoint Fp12Ele) : result g_result :=
  if pt_eq U INF || pt_eq V INF || pt_eq Q INF then Ok (GElem (fp_one fpk))
  else
    let '(xU, yU) := U in
    let '(xV, yV) := V in
    let '(xQ, yQ) := Q in
    if py_eq xU xV then
      if fp_isoppo fpk yU yV then
        Ok (GTuple (fp_sub fpk xQ xV) (fp_one fpk))
      else if py_eq yU yV then
        g_finish xV yV xQ yQ
          (fp_mul fpk (fp_smul fpk 3 (fp_mul fpk xV xV))
                      (fp_inv fpk (fp_smul fpk 2 yV)))
      else Raise UnknownError
    else
      g_finish xV yV xQ yQ
        (fp_mul fpk (fp_sub fpk yU yV) (fp_inv fpk (fp_sub fpk xU xV))).

(** Subscripting a coordinate: a float has no [__getitem__]. *)
Definition as_tuple {A} (v : pyval A) : result A :=
  match v with
  | El a => Ok a
  | Fl _ => Raise TypeError
  end.

Definition zero2 : Fp2Ele := (0, 0).
Definition zero4 : Fp4Ele := (zero2, zero2).

Definition _phi (P : EcPoint Fp2Ele) : result (EcPoint Fp12Ele) :=
  let _i2 := bn_inv_neg2 bn in
  let '(x_, y_) := P in
  x_ <- as_tuple x_ ;;
  y_ <- as_tuple y_ ;;
  let x : Fp12Ele :=
    (zero4, ((fp1_mul (bn_tw bn) (snd x_) _i2, fst x_), zero2), zero4) in
  let y : Fp12Ele :=
    (zero4, zero4, ((fp1_mul (bn_tw bn) (snd y_) _i2, fst y_), zero2)) in
  Ok (El x, El y).

(** [v[0]], [v[1]], [v[2]] on the 3-tuple of an Fp12 element. *)
Definition idx0 (v : Fp12Ele) : Fp4Ele := fst (fst v).
Definition idx1 (v : Fp12Ele) : Fp4Ele := snd (fst v).
Definition idx2 (v : Fp12Ele) : Fp4Ele := snd v.

Definition _phi_inv (P : EcPoint Fp12Ele) : result (EcPoint Fp2Ele) :=
  let _2 := bn_neg2 bn in
  let '(x_, y_) := P in
  x_ <- as_tuple x_ ;;
  y_ <- as_tuple y_ ;;
  let x : Fp2Ele :=
    (snd (fst (idx1 x_)), fp1_mul (bn_tw bn) (fst (fst (idx1 x_))) _2) in
  let y : Fp2Ele :=
    (snd (fst (idx2 y_)), fp1_mul (bn_tw bn) (fst (fst (idx2 y_))) _2) in
  Ok (El x, El y).

End Pairing.

(** ** Final exponentiation *)

(** The seven named terms of the hard part. *)
Record hard_terms (V : Type) : Type := {
  y6 : V; y5 : V; y4 : V; y3 : V; y2 : V; y1 : V; y0 : V
}.
Arguments y6 {V} _.
Arguments y5 {V} _.
Arguments y4 {V} _.
Arguments y3 {V} _.
Arguments y2 {V} _.
Arguments y1 {V} _.
Arguments y0 {V} _.

Section FinalExp.
Context {V : Type}.
(** [M = self.fpk.mul], [I = self.fpk.inv], [P = self.fpk.pow],
    [F = self.fpk.frob]. *)
Variable M : V -> V -> V.
Variable I : V -> V.
Variable P : V -> Z -> V.
Variable F : V -> V.
Variable t : Z.

(** Lines 201-202. *)
Definition finalexp_easy (f : V) : V :=
  let f := M (F (F (F (F (F (F f)))))) (I f) in
  let f := M (F (F f)) f in
  f.

(** Lines 205-226, on the output [f] of the easy part. *)
Definition finalexp_terms (f : V) : hard_terms V :=
  let f_t := P f t in
  let f_t2 := P f_t t in
  let f_t3 := P f_t2 t in
  let f_p := F f in
  let f_p2 := F f_p in
  let f_p3 := F f_p2 in
  let f_t_p := F f_t in
  let f_t2_p := F f_t2 in
  let f_t3_p := F f_t3 in
  let f_t2_p2 := F f_t2_p in
  {| y6 := P (M f_t3 f_t3_p) 36;
     y5 := P f_t2 30;
     y4 := P (M f_t2_p f_t) 18;
     y3 := P f_t_p 12;
     y2 := P f_t2_p2 6;
     y1 := M f f;
     y0 := M f_p (M f_p2 f_p3) |}.

(** Lines 228-231. *)
Definition finalexp_combine (y : hard_terms V) : V :=
  let f_num := M (y2 y) (y0 y) in
  let f_den := M (y6 y) (M (y5 y) (M (y4 y) (M (y3 y) (y1 y)))) in
  M f_num (I f_den).

Definition finalexp_on (f : V) : V :=
  finalexp_combine (finalexp_terms (finalexp_easy f)).

(** The final exponentiation in the words of the specification, with
    the powers 36, 30, 18, 12, 6 attached to y6, y5, y4, y3, y2 and no
    power on y1 and y0. *)
Definition Frob (k : nat) (f : V) : V := Nat.iter k F f.
Definition div (a b : V) : V := M a (I b).

Definition finalexp_spec (f : V) : V :=
  let f := div (Frob 6 f) f in
  let f := M (Frob 2 f) f in
  let ft := P f t in
  let ft2 := P ft t in
  let ft3 := P ft2 t in
  let s6 := P (M ft3 (Frob 1 ft3)) 36 in
  let s5 := P ft2 30 in
  let s4 := P (M (Frob 1 ft2) ft) 18 in
  let s3 := P (Frob 1 ft) 12 in
  let s2 := P (Frob 2 ft2) 6 in
  let s1 := M f f in
  let s0 := M (Frob 1 f) (M (Frob 2 f) (Frob 3 f)) in
  div (M s2 s0) (M s6 (M s5 (M s4 (M s3 s1)))).

End FinalExp.

(** The free algebra over the four operations: a provider in which every
    value records how it was computed. *)
Inductive term : Type :=
| TVar
| TMul (a b : term)
| TInv (a : term)
| TPow (a : term) (k : Z)
| TFrob (a : term).

(** The power applied last to build a term, 1 when it is not a power. *)
Definition outer_power (x : term) : Z :=
  match x with
  | TPow _ k => k
  | _ => 1
  end.

Definition term_hard_terms (t : Z) : hard_terms term :=
  finalexp_terms TMul TPow TFrob t (finalexp_easy TMul TInv TFrob TVar).

(** The last powers of the named terms, read in either order. *)
Definition powers_y0_to_y6 (y : hard_terms term) : list Z :=
  map outer_power [y0 y; y1 y; y2 y; y3 y; y4 y; y5 y; y6 y].

Definition powers_y6_to_y0 (y : hard_terms term) : list Z :=
  map outer_power [y6 y; y5 y; y4 y; y3 y; y2 y; y1 y; y0 y].

Section PairingLoop.
Variable bn : BNBIDH.

Let tw := bn_tw bn.
Let fpk := tw_fpk (bn_tw bn).
Let ec2 := bn_ec2 bn.

Definition _finalexp (f : pyval Fp12Ele) : pyval Fp12Ele :=
  finalexp_on (fp_mul fpk) (fp_inv fpk) (fp_pow fpk) (fp_frob fpk)
    (bn_t bn) f.

(** [fpk.mul(f, g)] for a [g] returned by [_g_fn]. *)
Definition mul_g (f : pyval Fp12Ele) (g : g_result)
  : result (pyval Fp12Ele) :=
  match g with
  | GElem v => Ok (fp_mul fpk f v)
  | GTuple v w => fpk_mul_pair tw f (v, w)
  end.

(** One turn of the Miller loop (lines 248-256) on the state [(f, T)]. *)
Definition miller_step (_P _Q : EcPoint Fp12Ele) (Q : EcPoint Fp2Ele)
    (st : pyval Fp12Ele * EcPoint Fp2Ele) (i : ascii)
  : result (pyval Fp12Ele * EcPoint Fp2Ele) :=
  let '(f, T) := st in
  _T <- _phi bn T ;;
  g <- _g_fn bn _T _T _P ;;
  f <- mul_g (fp_mul fpk f f) g ;;
  T <- add ec2 T T ;;
  if Ascii.eqb i "1" then
    pT <- _phi bn T ;;
    g <- _g_fn bn pT _Q _P ;;
    f <- mul_g f g ;;
    T <- add ec2 T Q ;;
    Ok (f, T)
  else Ok (f, T).

Fixpoint miller_loop (_P _Q : EcPoint Fp12Ele) (Q : EcPoint Fp2Ele)
    (st : pyval Fp12Ele * EcPoint Fp2Ele) (bits : list ascii)
  : result (pyval Fp12Ele * EcPoint Fp2Ele) :=
  match bits with
  | [] => Ok st
  | i :: rest =>
      st' <- miller_step _P _Q Q st i ;; miller_loop _P _Q Q st' rest
  end.

Definition e (P : EcPoint Z) (Q : EcPoint Fp2Ele)
  : result (pyval Fp12Ele) :=
  let _P := (fpk_extend tw (fst P), fpk_extend tw (snd P)) in
  _Q <- _phi bn Q ;;
  st <- miller_loop _P _Q Q (fp_one fpk, Q)
          (slice_from_1 (format_b (bn_a bn))) ;;
  let '(f, T) := st in
  let _Q1 := (fp_frob fpk (fst _Q), fp_frob fpk (snd _Q)) in
  let _Q2 := (fp_frob fpk (fst _Q1), fp_neg fpk (fp_frob fpk (snd _Q1))) in
  pT <- _phi bn T ;;
  g <- _g_fn bn pT _Q1 _P ;;
  f <- mul_g f g ;;
  Q1' <- _phi_inv bn _Q1 ;;
  T <- add ec2 T Q1' ;;
  pT <- _phi bn T ;;
  g <- _g_fn bn pT _Q2 _P ;;
  f <- mul_g f g ;;
  Ok (_finalexp f).

End PairingLoop.

(** ** Providers to run the code on *)

(** Tuples of integers of a fixed shape, for coordinatewise arithmetic. *)
Class Shape (A : Type) : Type := {
  smap1 : (Z -> Z) -> A -> A;
  smap2 : (Z -> Z -> Z) -> A -> A -> A;
  sconst : Z -> A
}.

#[export] Instance Z_Shape : Shape Z :=
  {| smap1 := fun f a => f a; smap2 := fun f a b => f a b;
     sconst := fun z => z |}.

#[export] Instance pair_Shape {A B} `{Shape A} `{Shape B} : Shape (A * B) :=
  {| smap1 := fun f a => (smap1 f (fst a), smap1 f (snd a));
     smap2 := fun f a b =>
                (smap2 f (fst a) (fst b), smap2 f (snd a) (snd b));
     sconst := fun z => (sconst z, sconst z) |}.

(** Modelled from the spec: the base level of the field tower
    ([gmalg.primefield.PrimeField], whose code is not in
    [ellipticcurve.py]) as "an integer modulo a prime p" with the ring
    operations of the interface table, [inv] by Fermat's little theorem
    and [is_opposite] as "x == -y".  Every operation reduces its result
    with Python's [%], which turns an infinite or NaN float operand into
    NaN.  At carrier [Z] this is the prime field; at a tuple carrier the
    same operations act coordinatewise, which keeps the interface of an
    extension level without its multiplication. *)
Module PrimeField.
Section Make.
Context {A : Type} `{ElemEq A} `{Shape A}.
Variable p : Z.

Definition lift1 (f : Z -> Z) (x : pyval A) : pyval A :=
  match x with
  | El a => El (smap1 f a)
  | Fl _ => Fl FNaN
  end.

Definition lift2 (f : Z -> Z -> Z) (x y : pyval A) : pyval A :=
  match x, y with
  | El a, El b => El (smap2 f a b)
  | _, _ => Fl FNaN
  end.

Fixpoint find_root (a : Z) (fuel : nat) (c : Z) : Z :=
  match fuel with
  | O => -1
  | S n => if (c * c) mod p =? a then c else find_root a n (c + 1)
  end.

Definition make : PrimeFieldBase A :=
  let neg := lift1 (fun a => (- a) mod p) in
  {| fp_zero := El (sconst 0);
     fp_one := El (sconst 1);
     fp_add := lift2 (fun a b => (a + b) mod p);
     fp_sub := lift2 (fun a b => (a - b) mod p);
     fp_neg := neg;
     fp_mul := lift2 (fun a b => (a * b) mod p);
     fp_smul := fun k => lift1 (fun a => (k * a) mod p);
     fp_inv := lift1 (fun a => a ^ (p - 2) mod p);
     fp_pow := fun x k => lift1 (fun a => a ^ k mod p) x;
     fp_sqrt := lift1 (fun a => find_root a (Z.to_nat p) 0);
     fp_isoppo := fun x y => py_eq x (neg y);
     fp_frob := lift1 (fun a => a) |}.

End Make.
End PrimeField.

(** A test double for [Fp.PrimeField12(p)], not the field tower: the
    coordinatewise providers give a product ring (its unit is all ones,
    its Frobenius map the identity), [fp2.extend(b)] is the pair (0, b)
    and [fpk.extend] fills the last slot.  It only shows that the
    hypotheses of the theorems on the pairing code can be met; the values
    computed on it are not those of the library. *)
Definition coordinatewise_tower (p : Z) : Tower :=
  {| tw_fpk := PrimeField.make p;
     tw_fp2 := PrimeField.make p;
     fp1_neg := fun a => (- a) mod p;
     fp1_inv := fun a => a ^ (p - 2) mod p;
     fp1_mul := fun a b => (a * b) mod p;
     fp2_extend := fun b => El (0, b);
     fpk_extend := fun x =>
       match x with
       | El a => El (zero4, zero4, (zero2, (0, a)))
       | Fl f => Fl f
       end;
     fpk_mul_pair := fun _ _ => Raise TypeError |}.

(** The curve y^2 = x^3 + 2x + 3 over the integers modulo 97. *)
Definition curve97 : EllipticCurve Z :=
  {| ec_fp := PrimeField.make 97; ec_a := El 2; ec_b := El 3 |}.

Definition pt (x y : Z) : EcPoint Z := (El x, El y).

(** The engine for the seed t = 1 (p = 103) over the stand-in tower. *)
Definition bn103 : BNBIDH :=
  BNBIDH_build coordinatewise_tower 1 2 (1, 0) (pt 1 2)
    (El (0, 1), El (0, 2)).

(** ** Tests used to state the behaviour of the pairing code *)

(** [isinstance(v, float)]: the value cannot be subscripted. *)
Definition is_float {A} (v : pyval A) : bool :=
  match v with
  | El _ => false
  | Fl _ => true
  end.

Definition has_float {A} (P : EcPoint A) : bool :=
  is_float (fst P) || is_float (snd P).

(** The first test of [_g_fn] (line 145). *)
Definition g_fn_guard (U V Q : EcPoint Fp12Ele) : bool :=
  pt_eq U INF || pt_eq V INF || pt_eq Q INF.

(** The tests that lead [_g_fn] to its tuple (line 154) and to its
    [raise] (line 161). *)
Definition g_fn_vertical (bn : BNBIDH) (U V Q : EcPoint Fp12Ele) : bool :=
  negb (g_fn_guard U V Q) && py_eq (fst U) (fst V)
  && fp_isoppo (tw_fpk (bn_tw bn)) (snd U) (snd V).

Definition g_fn_raises (bn : BNBIDH) (U V Q : EcPoint Fp12Ele) : bool :=
  negb (g_fn_guard U V Q) && py_eq (fst U) (fst V)
  && negb (fp_isoppo (tw_fpk (bn_tw bn)) (snd U) (snd V))
  && negb (py_eq (snd U) (snd V)).

(** Horner's rule on a string of binary digits, from the value [acc]. *)
Definition horner (bits : list ascii) (acc : Z) : Z :=
  fold_left (fun a c => 2 * a + (if Ascii.eqb c "1" then 1 else 0)) bits acc.

(** ** Sanity checks *)

Example curve97_valid : isvalid curve97 (pt 3 6) = true.
Proof. vm_compute. reflexivity. Qed.

Example curve97_double : add curve97 (pt 3 6) (pt 3 6) = Ok (pt 80 10).
Proof. vm_compute. reflexivity. Qed.

Example curve97_double_valid : isvalid curve97 (pt 80 10) = true.
Proof. vm_compute. reflexivity. Qed.

Example curve97_mul3 :
  mul curve97 3 (pt 3 6)
  = (D <- add curve97 (pt 3 6) (pt 3 6) ;; add curve97 D (pt 3 6)).
Proof. vm_compute. reflexivity. Qed.

Example curve97_opposite : add curve97 (pt 3 6) (pt 3 91) = Ok INF.
Proof. vm_compute. reflexivity. Qed.

Example curve97_bad_pair : add curve97 (pt 3 6) (pt 3 7) = Raise UnknownError.
Proof. vm_compute. reflexivity. Qed.

Example format_b_6 : format_b 6 = ["1"; "1"; "0"]%char.
Proof. reflexivity. Qed.

(** ** Equality on values *)

Lemma pyfloat_eq_true f g : pyfloat_eq f g = true -> f = g.
Proof. destruct f, g; simpl; congruence. Qed.

Lemma py_eq_true {A} `{ElemEq A} (v w : pyval A) : py_eq v w = true -> v = w.
Proof.
  destruct v as [a|f], w as [b|g]; simpl; try discriminate.
  - intros E. apply elem_eqb_true in E. now subst.
  - intros E. apply pyfloat_eq_true in E. now subst.
Qed.

Lemma pt_eq_true {A} `{ElemEq A} (P Q : EcPoint A) : pt_eq P Q = true -> P = Q.
Proof.
  destruct P as [x y], Q as [x' y']; unfold pt_eq; simpl.
  intros E. apply andb_true_iff in E as [Ex Ey].
  apply py_eq_true in Ex, Ey. now subst.
Qed.

Lemma pt_eq_INF {A} `{ElemEq A} : pt_eq (@INF A) INF = true.
Proof. reflexivity. Qed.

Lemma pt_eq_affine_INF {A} `{ElemEq A} (x : A) (y : pyval A) :
  pt_eq (El x, y) INF = false.
Proof. reflexivity. Qed.

(** ** EllipticCurve.add *)

Section AddFacts.
Context {A : Type} `{ElemEq A}.
Variable ec : EllipticCurve A.

Lemma add_cases (P1 P2 : EcPoint A) :
  add ec P1 P2
  = if add_raises ec P1 P2 then Raise UnknownError
    else if pt_eq P1 INF then Ok P2
    else if pt_eq P2 INF then Ok P1
    else if negb (py_eq (fst P1) (fst P2)) then
      add_finish ec (fst P1) (snd P1) (fst P2)
        (fp_mul (ec_fp ec) (fp_sub (ec_fp ec) (snd P2) (snd P1))
           (fp_inv (ec_fp ec) (fp_sub (ec_fp ec) (fst P2) (fst P1))))
    else if fp_isoppo (ec_fp ec) (snd P1) (snd P2) then Ok INF
    else
      add_finish ec (fst P1) (snd P1) (fst P2)
        (fp_mul (ec_fp ec)
           (fp_add (ec_fp ec) (ec_a ec)
              (fp_smul (ec_fp ec) 3 (fp_mul (ec_fp ec) (fst P1) (fst P1))))
           (fp_inv (ec_fp ec) (fp_smul (ec_fp ec) 2 (snd P1)))).
Proof.
  unfold add, add_raises. destruct P1 as [x1 y1], P2 as [x2 y2]; simpl.
  destruct (pt_eq (x1, y1) INF); simpl; [reflexivity|].
  destruct (pt_eq (x2, y2) INF); simpl; [reflexivity|].
  destruct (py_eq x1 x2); simpl; [|reflexivity].
  destruct (fp_isoppo (ec_fp ec) y1 y2); simpl; [reflexivity|].
  destruct (py_eq y1 y2); reflexivity.
Qed.

Lemma add_finish_ok x1 y1 x2 lam :
  exists R, add_finish ec x1 y1 x2 lam = Ok R.
Proof. unfold add_finish. eexists. reflexivity. Qed.

(** C7: [add] raises exactly in the equal-x, neither-opposite-nor-equal
    case of two non-infinity operands; there the exception
    [UnknownError] is the result of the call, and in every other case
    the call returns a point. *)
Theorem add_raises_exactly (P1 P2 : EcPoint A) :
  (add_raises ec P1 P2 = true /\ add ec P1 P2 = Raise UnknownError)
  \/ (add_raises ec P1 P2 = false /\ exists R, add ec P1 P2 = Ok R).
Proof.
  rewrite add_cases. destruct (add_raises ec P1 P2).
  - left. split; reflexivity.
  - right. split; [reflexivity|].
    destruct (pt_eq P1 INF); [eexists; reflexivity|].
    destruct (pt_eq P2 INF); [eexists; reflexivity|].
    destruct (negb (py_eq (fst P1) (fst P2))); [apply add_finish_ok|].
    destruct (fp_isoppo (ec_fp ec) (snd P1) (snd P2));
      [eexists; reflexivity | apply add_finish_ok].
Qed.

(** C8: the point at infinity is a two-sided identity of [add]. *)
Theorem add_INF_identity (P : EcPoint A) :
  add ec P INF = Ok P /\ add ec INF P = Ok P.
Proof.
  split.
  - unfold add. destruct (pt_eq P INF) eqn:E.
    + apply pt_eq_true in E. now subst.
    + rewrite pt_eq_INF. reflexivity.
  - unfold add. rewrite pt_eq_INF. reflexivity.
Qed.

(** An exception raised by [add] leaves [sub] and [mul] unchanged. *)
Lemma sub_raises (P1 P2 : EcPoint A) e :
  add ec P1 (neg ec P2) = Raise e -> sub ec P1 P2 = Raise e.
Proof. unfold sub. auto. Qed.

Lemma mul_loop_raises (P Q : EcPoint A) i rest e :
  add ec Q Q = Raise e -> mul_loop ec P Q (i :: rest) = Raise e.
Proof. intros E. simpl. unfold mul_step. rewrite E. reflexivity. Qed.

(** C10: with the scalar 0 the loop of [mul] has no character to read
    and the result is the operand itself. *)
Theorem mul_zero_returns_operand (P : EcPoint A) :
  mul ec 0 P = Ok P.
Proof. reflexivity. Qed.

Lemma mul_one_returns_operand (P : EcPoint A) : mul ec 1 P = Ok P.
Proof. reflexivity. Qed.

End AddFacts.

(** ** EllipticCurve.isvalid and EllipticCurve.neg *)

Section UnguardedInfinity.
Context {A : Type} `{ElemEq A}.
Variable ec : EllipticCurve A.

Lemma neg_affine (x y : pyval A) :
neg ec (x, y) = (x, fp_neg (ec_fp ec) y).
Proof. reflexivity. Qed.

Lemma isvalid_affine (x y : pyval A) :
isvalid ec (x, y) = py_eq (fp_mul (ec_fp ec) y y) (get_y_sqr ec x).
Proof. reflexivity. Qed.

Lemma py_eq_nan_l (v : pyval A) : py_eq (Fl FNaN) v = false.
Proof. destruct v as [a|f]; [reflexivity | destruct f; reflexivity]. Qed.

(** C5: [isvalid] has no case for the point at infinity; on [INF] it
  multiplies the float coordinates like any others, and a provider whose
  product of the two infinities is NaN makes the answer [False]. *)
Theorem isvalid_INF_false :
fp_mul (ec_fp ec) float_inf float_inf = Fl FNaN ->
isvalid ec INF = false.
Proof.
intros E. unfold INF. rewrite isvalid_affine, E. apply py_eq_nan_l.
Qed.

(** C6: [neg] has no case for the point at infinity; it returns [INF]
  only when the provider's negation sends the float infinity to
  itself, and on every other pair it negates the second coordinate. *)
Theorem neg_INF_iff :
(neg ec INF = INF <-> fp_neg (ec_fp ec) float_inf = float_inf)
/\ forall x y : pyval A, neg ec (x, y) = (x, fp_neg (ec_fp ec) y).
Proof.
split; [|intros; reflexivity].
unfold INF. rewrite neg_affine. split.
- intros E. injection E as E. exact E.
- intros ->. reflexivity.
Qed.

End UnguardedInfinity.

Lemma isvalid_INF_false_curve97 :
  fp_mul (ec_fp curve97) float_inf float_inf = Fl FNaN
  /\ isvalid curve97 INF = false.
Proof.
  split; [vm_compute; reflexivity
        | apply (isvalid_INF_false curve97); vm_compute; reflexivity].
Defined.

Example neg_INF_curve97 : neg curve97 INF = (Fl FInf, Fl FNaN).
Proof. vm_compute. reflexivity. Qed.

Example sub_INF_curve97 :
  sub curve97 (pt 3 6) INF = Ok (Fl FNaN, Fl FNaN).
Proof. vm_compute. reflexivity. Qed.

(** ** BNBIDH.__init__ *)

(** C9: construction raises [NotImplementedError] for every [beta] other
    than (1, 0) and yields an engine for [beta] = (1, 0). *)
Theorem init_beta_gate (PrimeField12 : Z -> Tower) (t b : Z) (beta : Fp2Ele)
    (G1 : EcPoint Z) (G2 : EcPoint Fp2Ele) :
  (beta <> (1, 0)
   /\ BNBIDH_init PrimeField12 t b beta G1 G2 = Raise NotImplementedError)
  \/ (beta = (1, 0)
      /\ exists bn, BNBIDH_init PrimeField12 t b beta G1 G2 = Ok bn).
Proof.
  unfold BNBIDH_init. destruct (elem_eqb beta (1, 0)) eqn:E; simpl.
  - right. apply elem_eqb_true in E. split; [exact E|]. eexists. reflexivity.
  - left. split; [|reflexivity].
    intros Eb. apply elem_eqb_true in Eb. congruence.
Qed.

Example bn103_constants :
  (bn_p bn103, bn_n bn103, bn_a bn103, bn_neg2 bn103, bn_inv_neg2 bn103)
  = (103, 97, 8, 101, 51).
Proof. vm_compute. reflexivity. Qed.

(** ** BNBIDH._g_fn *)

(** C2: in the vertical-line branch [_g_fn] returns the 2-tuple
    (xQ - xV, one), not the Fp12 element xQ - xV. *)
Theorem g_fn_vertical_returns_tuple (bn : BNBIDH)
    (xU yU xV yV xQ yQ : pyval Fp12Ele) :
  let fpk := tw_fpk (bn_tw bn) in
  pt_eq (xU, yU) INF || pt_eq (xV, yV) INF || pt_eq (xQ, yQ) INF = false ->
  py_eq xU xV = true ->
  fp_isoppo fpk yU yV = true ->
  _g_fn bn (xU, yU) (xV, yV) (xQ, yQ)
  = Ok (GTuple (fp_sub fpk xQ xV) (fp_one fpk))
  /\ _g_fn bn (xU, yU) (xV, yV) (xQ, yQ) <> Ok (GElem (fp_sub fpk xQ xV)).
Proof.
  intros fpk Hinf Hx Hy. unfold _g_fn. fold fpk.
  rewrite Hinf, Hx, Hy. split; [reflexivity | discriminate].
Qed.

Lemma g_fn_vertical_returns_tuple_bn103 :
  let c (z : Z) : pyval Fp12Ele := El (sconst z) in
  (pt_eq (c 5, c 1) INF || pt_eq (c 5, c 102) INF || pt_eq (c 7, c 9) INF
   = false
   /\ py_eq (c 5) (c 5) = true
   /\ fp_isoppo (tw_fpk (bn_tw bn103)) (c 1) (c 102) = true)
  /\ _g_fn bn103 (c 5, c 1) (c 5, c 102) (c 7, c 9)
     = Ok (GTuple (fp_sub (tw_fpk (bn_tw bn103)) (c 7) (c 5))
                  (fp_one (tw_fpk (bn_tw bn103)))).
Proof.
  intros c. split; [repeat split; vm_compute; reflexivity|].
  refine (proj1 (g_fn_vertical_returns_tuple bn103 (c 5) (c 1) (c 5) (c 102)
                   (c 7) (c 9) _ _ _)); vm_compute; reflexivity.
Defined.

Example g_fn_vertical_value_bn103 :
  _g_fn bn103 (El (sconst 5), El (sconst 1)) (El (sconst 5), El (sconst 102))
    (El (sconst 7), El (sconst 9))
  = Ok (GTuple (El (sconst 2)) (El (sconst 1))).
Proof. vm_compute. reflexivity. Qed.

(** ** BNBIDH._phi and BNBIDH._phi_inv *)

(** C3: [_phi_inv] undoes [_phi] on an affine point of the twisted
    curve, provided multiplying by the inverse of -2 and then by -2 gives
    back the second component of each coordinate. *)
Theorem phi_inv_phi (bn : BNBIDH) (x y : Fp2Ele) :
  let m := fp1_mul (bn_tw bn) in
  m (m (snd x) (bn_inv_neg2 bn)) (bn_neg2 bn) = snd x ->
  m (m (snd y) (bn_inv_neg2 bn)) (bn_neg2 bn) = snd y ->
  (P <- _phi bn (El x, El y) ;; _phi_inv bn P) = Ok (El x, El y).
Proof.
  intros m Hx Hy. destruct x as [x0 x1], y as [y0 y1].
  subst m. cbn [fst snd] in Hx, Hy.
  unfold _phi, _phi_inv, as_tuple, bind, idx1, idx2. cbn [fst snd].
  rewrite Hx, Hy. reflexivity.
Qed.

Lemma phi_inv_phi_bn103 :
  let m := fp1_mul (bn_tw bn103) in
  (m (m 4 (bn_inv_neg2 bn103)) (bn_neg2 bn103) = 4
   /\ m (m 6 (bn_inv_neg2 bn103)) (bn_neg2 bn103) = 6)
  /\ (P <- _phi bn103 (El (3, 4), El (5, 6)) ;; _phi_inv bn103 P)
     = Ok (El (3, 4), El (5, 6)).
Proof.
  intros m. split; [split; vm_compute; reflexivity|].
  apply (phi_inv_phi bn103 (3, 4) (5, 6)); vm_compute; reflexivity.
Defined.

Example phi_slots_bn103 :
  _phi bn103 (El (3, 4), El (5, 6))
  = Ok (El (zero4, ((101, 3), zero2), zero4),
        El (zero4, zero4, ((100, 5), zero2))).
Proof. vm_compute. reflexivity. Qed.

Example phi_INF_bn103 : _phi bn103 INF = Raise TypeError.
Proof. vm_compute. reflexivity. Qed.

(** ** BNBIDH._finalexp *)

(** The powers 36, 30, 18, 12, 6, 1, 1 are not those of y0, ..., y6 in
    this order: y0 is a plain product and y6 is the 36th power. *)
Lemma finalexp_powers_not_y0_to_y6 :
  powers_y0_to_y6 (term_hard_terms 3) <> [36; 30; 18; 12; 6; 1; 1]
  /\ (forall x, y0 (term_hard_terms 3) <> TPow x 36)
  /\ (exists x, y6 (term_hard_terms 3) = TPow x 36).
Proof.
  split; [vm_compute; discriminate|].
  split; [intros x; vm_compute; discriminate|].
  eexists. vm_compute. reflexivity.
Qed.

(** C4 (amended): [_finalexp] is the easy part followed by the hard
    part of the specification, in which the powers 36, 30, 18, 12, 6 are
    those of y6, y5, y4, y3, y2, and y1, y0 carry no power. *)
Theorem finalexp_refines_spec :
  (forall (bn : BNBIDH) (f : pyval Fp12Ele),
      let fpk := tw_fpk (bn_tw bn) in
      _finalexp bn f
      = finalexp_spec (fp_mul fpk) (fp_inv fpk) (fp_pow fpk) (fp_frob fpk)
          (bn_t bn) f)
  /\ (forall t, powers_y6_to_y0 (term_hard_terms t)
                = [36; 30; 18; 12; 6; 1; 1])
  /\ (forall t,
      let f := finalexp_easy TMul TInv TFrob TVar in
      f = TMul (TFrob (TFrob (TMul (Nat.iter 6 TFrob TVar) (TInv TVar))))
               (TMul (Nat.iter 6 TFrob TVar) (TInv TVar))
      /\ y1 (term_hard_terms t) = TMul f f
      /\ y0 (term_hard_terms t)
         = TMul (TFrob f) (TMul (TFrob (TFrob f)) (TFrob (TFrob (TFrob f))))
      /\ finalexp_on TMul TInv TPow TFrob t TVar
         = let y := term_hard_terms t in
           TMul (TMul (y2 y) (y0 y))
             (TInv (TMul (y6 y) (TMul (y5 y) (TMul (y4 y)
                                                (TMul (y3 y) (y1 y))))))).
Proof.
  split; [intros; reflexivity|].
  split; [intros; reflexivity|].
  intros t f. repeat split.
Qed.

(** ** EllipticCurve.mul: the double-and-add loop *)

Lemma bind_ret {T} (r : result T) : (x <- r ;; Ok x) = r.
Proof. destruct r; reflexivity. Qed.

Lemma bind_assoc {T U W} (r : result T) (k : T -> result U)
    (h : U -> result W) :
  (y <- (x <- r ;; k x) ;; h y) = (x <- r ;; y <- k x ;; h y).
Proof. destruct r; reflexivity. Qed.

Lemma pos_bits_nonempty (p : positive) : pos_bits p <> [].
Proof. destruct p; simpl; try discriminate; now destruct (pos_bits p). Qed.

Lemma tl_app {T} (l m : list T) : l <> [] -> tl (l ++ m) = tl l ++ m.
Proof. destruct l; [congruence | reflexivity]. Qed.

Section MulFacts.
Context {A : Type} `{ElemEq A}.
Variable ec : EllipticCurve A.

Lemma mul_loop_app (P Q : EcPoint A) (b1 b2 : list ascii) :
  mul_loop ec P Q (b1 ++ b2)
  = (Q' <- mul_loop ec P Q b1 ;; mul_loop ec P Q' b2).
Proof.
  revert Q. induction b1 as [|i b1 IH]; intros Q; simpl; [reflexivity|].
  rewrite bind_assoc. destruct (mul_step ec P Q i); simpl; [apply IH|reflexivity].
Qed.

Lemma mul_pos_snoc (p : positive) (c : ascii) (P : EcPoint A) :
  mul_loop ec P P (slice_from_1 (pos_bits p ++ [c]))
  = (Q <- mul ec (Zpos p) P ;; mul_step ec P Q c).
Proof.
  unfold mul, slice_from_1; simpl format_b.
  rewrite tl_app by apply pos_bits_nonempty.
  rewrite mul_loop_app. simpl.
  destruct (mul_loop ec P P (tl (pos_bits p))); simpl; [apply bind_ret|reflexivity].
Qed.

(** For a positive scalar, one more binary digit costs one doubling, and
    one addition of [P] when the digit is 1. *)
Theorem mul_double_and_add (k : Z) (P : EcPoint A) :
  0 < k ->
  mul ec (2 * k) P = (Q <- mul ec k P ;; add ec Q Q)
  /\ mul ec (2 * k + 1) P
     = (Q <- mul ec k P ;; D <- add ec Q Q ;; add ec D P).
Proof.
  intros Hk. destruct k as [|p|p]; try lia. split.
  - change (2 * Z.pos p) with (Z.pos p~0). unfold mul at 1. simpl format_b.
    rewrite mul_pos_snoc. unfold mul_step. simpl.
    destruct (mul ec (Z.pos p) P); simpl; [apply bind_ret|reflexivity].
  - change (2 * Z.pos p + 1) with (Z.pos p~1). unfold mul at 1.
    simpl format_b. rewrite mul_pos_snoc. reflexivity.
Qed.




Lemma mul_loop_INF (bits : list ascii) : mul_loop ec INF INF bits = Ok INF.
Proof.
  induction bits as [|i bits IH]; simpl; [reflexivity|].
  unfold mul_step. unfold add at 1. rewrite pt_eq_INF. simpl.
  destruct (Ascii.eqb i "1").
  - unfold add at 1. rewrite pt_eq_INF. simpl. exact IH.
  - simpl. exact IH.
Qed.

(** Every multiple of the point at infinity is the point at infinity,
    whatever the integer scalar and the field provider. *)
Theorem mul_INF (k : Z) : mul ec k INF = Ok INF.
Proof. unfold mul. apply mul_loop_INF. Qed.

(** An affine point minus itself is the point at infinity, provided the
    provider's [isoppo] recognises y and its negation. *)
Theorem sub_self_INF (x y : A) :
  fp_isoppo (ec_fp ec) (El y) (fp_neg (ec_fp ec) (El y)) = true ->
  sub ec (El x, El y) (El x, El y) = Ok INF
  /\ add ec (El x, El y) (neg ec (El x, El y)) = Ok INF.
Proof.
  intros Ho. assert (E : add ec (El x, El y) (neg ec (El x, El y)) = Ok INF).
  { unfold add, neg. rewrite pt_eq_affine_INF, pt_eq_affine_INF.
    assert (Ex : py_eq (El x) (El x) = true) by (now apply elem_eqb_true).
    rewrite Ex, Ho. reflexivity. }
  split; [exact E | exact E].
Qed.

End MulFacts.

Lemma mul_double_and_add_curve97 :
  0 < 3
  /\ mul curve97 (2 * 3) (pt 3 6)
     = (Q <- mul curve97 3 (pt 3 6) ;; add curve97 Q Q)
  /\ mul curve97 (2 * 3 + 1) (pt 3 6)
     = (Q <- mul curve97 3 (pt 3 6) ;; D <- add curve97 Q Q ;;
        add curve97 D (pt 3 6)).
Proof. split; [lia | apply (mul_double_and_add curve97 3 (pt 3 6)); lia]. Defined.


Example mul_minus_one_is_three :
  mul curve97 (-1) (pt 3 6) = mul curve97 3 (pt 3 6)
  /\ mul curve97 (-1) (pt 3 6) <> Ok (neg curve97 (pt 3 6)).
Proof. split; vm_compute; [reflexivity | discriminate]. Qed.

Lemma sub_self_INF_curve97 :
  fp_isoppo (ec_fp curve97) (El 6) (fp_neg (ec_fp curve97) (El 6)) = true
  /\ sub curve97 (El 3, El 6) (El 3, El 6) = Ok INF
  /\ add curve97 (El 3, El 6) (neg curve97 (El 3, El 6)) = Ok INF.
Proof.
  split; [vm_compute; reflexivity|].
  apply (sub_self_INF curve97 3 6). vm_compute. reflexivity.
Defined.

(** ** EllipticCurve.add does not read the coefficient b *)

Section CoefficientB.
Context {A : Type} `{ElemEq A}.
Variable fp : PrimeFieldBase A.
Variables a b b' : pyval A.

Let ec1 : EllipticCurve A := {| ec_fp := fp; ec_a := a; ec_b := b |}.
Let ec2 : EllipticCurve A := {| ec_fp := fp; ec_a := a; ec_b := b' |}.

Lemma add_ignores_b (P Q : EcPoint A) : add ec1 P Q = add ec2 P Q.
Proof. reflexivity. Qed.

Lemma mul_loop_ignores_b (P Q : EcPoint A) (bits : list ascii) :
  mul_loop ec1 P Q bits = mul_loop ec2 P Q bits.
Proof.
  revert Q. induction bits as [|i bits IH]; intros Q; simpl; [reflexivity|].
  unfold mul_step. rewrite !add_ignores_b.
  destruct (add ec2 Q Q) as [D|]; simpl; [|reflexivity].
  destruct (Ascii.eqb i "1"); simpl; [|apply IH].
  rewrite add_ignores_b. destruct (add ec2 D P); simpl; [apply IH|reflexivity].
Qed.

(** Two curves over the same field with the same coefficient a have the
    same [add], [sub] and [mul], whatever their coefficients b: only
    [get_y_sqr] and [isvalid] read b. *)
Theorem group_law_ignores_b (k : Z) (P Q : EcPoint A) :
  add ec1 P Q = add ec2 P Q
  /\ sub ec1 P Q = sub ec2 P Q
  /\ mul ec1 k P = mul ec2 k P.
Proof.
  split; [reflexivity|]. split; [reflexivity|].
  unfold mul. apply mul_loop_ignores_b.
Qed.

End CoefficientB.

(** ** The digits read by the loops *)

Lemma horner_app (l m : list ascii) (acc : Z) :
  horner (l ++ m) acc = horner m (horner l acc).
Proof. unfold horner. apply fold_left_app. Qed.

Lemma horner_pos_bits (p : positive) :
  exists rest, pos_bits p = "1"%char :: rest /\ horner rest 1 = Z.pos p.
Proof.
  induction p as [q [rest [E IH]]|q [rest [E IH]]|]; simpl.
  - exists (rest ++ ["1"%char]). rewrite E. split; [reflexivity|].
    rewrite horner_app, IH. simpl. lia.
  - exists (rest ++ ["0"%char]). rewrite E. split; [reflexivity|].
    rewrite horner_app, IH. simpl. lia.
  - exists []. split; reflexivity.
Qed.

(** For a positive integer, [f"{k:b}"] starts with the digit 1 and the
    characters after it, which the loops of [mul] and [e] iterate over,
    are the remaining binary digits of k: Horner's rule from 1 gives k. *)
Theorem loop_digits_value (k : Z) :
  0 < k ->
  hd "0"%char (format_b k) = "1"%char
  /\ horner (slice_from_1 (format_b k)) 1 = k.
Proof.
  intros Hk. destruct k as [|p|p]; try lia. simpl format_b.
  destruct (horner_pos_bits p) as [rest [E Hv]]. rewrite E. simpl. auto.
Qed.

Lemma loop_digits_value_6 :
  0 < 6
  /\ hd "0"%char (format_b 6) = "1"%char
  /\ horner (slice_from_1 (format_b 6)) 1 = 6.
Proof. split; [lia | apply (loop_digits_value 6); lia]. Defined.

(** ** BNBIDH._g_fn: the three outcomes *)

Section LineFunction.
Variable bn : BNBIDH.

Lemma g_finish_elem xV yV xQ yQ lam :
  exists v, g_finish bn xV yV xQ yQ lam = Ok (GElem v).
Proof. unfold g_finish. eexists. reflexivity. Qed.

(** [_g_fn] raises [UnknownError] exactly when no argument is [INF], the
    x-coordinates of U and V are equal and their y-coordinates are neither
    opposite nor equal; it returns a 2-tuple exactly in the vertical-line
    case; in every other case, an argument equal to [INF] included, it
    returns one Fp12 value. *)
Theorem g_fn_outcomes (U V Q : EcPoint Fp12Ele) :
  (g_fn_raises bn U V Q = true /\ _g_fn bn U V Q = Raise UnknownError)
  \/ (g_fn_raises bn U V Q = false /\ g_fn_vertical bn U V Q = true
      /\ exists v w, _g_fn bn U V Q = Ok (GTuple v w))
  \/ (g_fn_raises bn U V Q = false /\ g_fn_vertical bn U V Q = false
      /\ exists v, _g_fn bn U V Q = Ok (GElem v)).
Proof.
  unfold g_fn_raises, g_fn_vertical, g_fn_guard, _g_fn.
  destruct U as [xU yU], V as [xV yV], Q as [xQ yQ]; simpl fst; simpl snd.
  destruct (pt_eq (xU, yU) INF || pt_eq (xV, yV) INF || pt_eq (xQ, yQ) INF);
    simpl.
  { right. right. repeat split. eexists. reflexivity. }
  destruct (py_eq xU xV); simpl.
  2:{ right. right. repeat split. apply g_finish_elem. }
  destruct (fp_isoppo (tw_fpk (bn_tw bn)) yU yV); simpl.
  { right. left. repeat split. do 2 eexists. reflexivity. }
  destruct (py_eq yU yV); simpl.
  - right. right. repeat split. apply g_finish_elem.
  - left. split; reflexivity.
Qed.

(** With the point at infinity in any of the three places the line
    function is the unit of Fp12. *)
Theorem g_fn_INF_is_one (U V Q : EcPoint Fp12Ele) :
  _g_fn bn INF V Q = Ok (GElem (fp_one (tw_fpk (bn_tw bn))))
  /\ (_g_fn bn U INF Q = Ok (GElem (fp_one (tw_fpk (bn_tw bn))))
      /\ _g_fn bn U V INF = Ok (GElem (fp_one (tw_fpk (bn_tw bn))))).
Proof.
  split; [|split]; unfold _g_fn.
  - rewrite pt_eq_INF. reflexivity.
  - rewrite pt_eq_INF, orb_true_r. reflexivity.
  - rewrite pt_eq_INF, orb_true_r. reflexivity.
Qed.

(** ** BNBIDH._phi and BNBIDH.e on float coordinates *)

(** [_phi] subscripts both coordinates: it raises [TypeError] exactly on
    the points with a float coordinate, the point at infinity among them,
    and [e] then raises it too, whatever its first argument. *)
Theorem phi_float_TypeError (Q : EcPoint Fp2Ele) :
  (has_float Q = true /\ _phi bn Q = Raise TypeError
   /\ forall P, e bn P Q = Raise TypeError)
  \/ (has_float Q = false /\ exists R, _phi bn Q = Ok R).
Proof.
  destruct Q as [[x|f] [y|g]]; unfold has_float; simpl.
  - right. split; [reflexivity|]. eexists. reflexivity.
  - left. repeat split.
  - left. repeat split.
  - left. repeat split.
Qed.

(** The same holds for [_phi_inv] on points of the curve over Fp12. *)
Theorem phi_inv_float_TypeError (Q : EcPoint Fp12Ele) :
  (has_float Q = true /\ _phi_inv bn Q = Raise TypeError)
  \/ (has_float Q = false /\ exists R, _phi_inv bn Q = Ok R).
Proof.
  destruct Q as [[x|f] [y|g]]; unfold has_float; simpl.
  - right. split; [reflexivity|]. eexists. reflexivity.
  - left. repeat split.
  - left. repeat split.
  - left. repeat split.
Qed.

(** ** BNBIDH.e ends with the final exponentiation *)

(** Every value [e] returns is [_finalexp] of some Fp12 value: no path
    through the Miller loop reaches the caller without it. *)
Theorem e_returns_finalexp (P : EcPoint Z) (Q : EcPoint Fp2Ele)
    (v : pyval Fp12Ele) :
  e bn P Q = Ok v -> exists f, v = _finalexp bn f.
Proof.
  unfold e.
  repeat match goal with
         | |- bind ?r _ = Ok _ -> _ =>
             destruct r as [?|]; simpl; [|discriminate]
         | |- (let '(_, _) := ?st in _) = Ok _ -> _ => destruct st; simpl
         end.
  intros E. injection E as <-. eexists. reflexivity.
Qed.

End LineFunction.

Lemma e_returns_finalexp_bn103 :
  exists v,
    e bn103 (pt 1 2) (El (0, 1), El (0, 2)) = Ok v
    /\ exists f, v = _finalexp bn103 f.
Proof.
  eexists. split; [vm_compute; reflexivity|].
  apply (e_returns_finalexp bn103 (pt 1 2) (El (0, 1), El (0, 2))).
  vm_compute. reflexivity.
Defined.

(** ** The running point of the Miller loop *)

Section MillerPoint.
Variable bn : BNBIDH.

Ltac run_binds :=
  repeat match goal with
         | |- bind ?r _ = Ok _ -> _ =>
             destruct r as [?|]; simpl; [|discriminate]
         | |- (let '(_, _) := ?st in _) = Ok _ -> _ => destruct st; simpl
         end.

Lemma miller_step_point (_P _Q : EcPoint Fp12Ele) (Q T T' : EcPoint Fp2Ele)
    (f f' : pyval Fp12Ele) (i : ascii) :
  miller_step bn _P _Q Q (f, T) i = Ok (f', T') ->
  mul_step (bn_ec2 bn) Q T i = Ok T'.
Proof.
  unfold miller_step, mul_step. run_binds.
  destruct (Ascii.eqb i "1").
  - run_binds. intros E. injection E as _ <-. reflexivity.
  - intros E. injection E as _ <-. reflexivity.
Qed.

(** Whenever the Miller loop completes, its running point T has gone
    through the double-and-add loop of [mul] on the twisted curve, digit
    for digit: the line evaluations never feed back into T. *)
Theorem miller_loop_point (_P _Q : EcPoint Fp12Ele) (Q : EcPoint Fp2Ele)
    (bits : list ascii) (T T' : EcPoint Fp2Ele) (f f' : pyval Fp12Ele) :
  miller_loop bn _P _Q Q (f, T) bits = Ok (f', T') ->
  mul_loop (bn_ec2 bn) Q T bits = Ok T'.
Proof.
  revert f T. induction bits as [|i bits IH]; intros f T;
    cbn [miller_loop mul_loop].
  - intros E. injection E as _ <-. reflexivity.
  - destruct (miller_step bn _P _Q Q (f, T) i) as [[f1 T1]|] eqn:Es;
      cbn [bind]; [|discriminate].
    apply miller_step_point in Es. rewrite Es. cbn [bind]. apply IH.
Qed.

(** In particular the point reached by the loop of [e], started at Q
    over the digits of 6t + 2, is [mul(6t + 2, Q)] on the twisted curve. *)
Theorem miller_loop_reaches_multiple (_P _Q : EcPoint Fp12Ele)
    (Q T' : EcPoint Fp2Ele) (f f' : pyval Fp12Ele) :
  miller_loop bn _P _Q Q (f, Q) (slice_from_1 (format_b (bn_a bn)))
  = Ok (f', T') ->
  mul (bn_ec2 bn) (bn_a bn) Q = Ok T'.
Proof. unfold mul. apply miller_loop_point. Qed.

(** ** BNBIDH._finalexp on the unit *)

(** When the provider's [mul], [inv], [frob] and [pow] (at the exponents
    the code uses) fix the unit of Fp12, so does [_finalexp]. *)
Theorem finalexp_one :
  let fpk := tw_fpk (bn_tw bn) in
  let one := fp_one fpk in
  fp_mul fpk one one = one ->
  fp_inv fpk one = one ->
  fp_frob fpk one = one ->
  (forall k, In k [bn_t bn; 36; 30; 18; 12; 6] -> fp_pow fpk one k = one) ->
  _finalexp bn one = one.
Proof.
  intros fpk one Hm Hi Hf Hp.
  unfold _finalexp, finalexp_on, finalexp_combine, finalexp_terms,
    finalexp_easy. fold fpk. fold one. cbn [y0 y1 y2 y3 y4 y5 y6].
  assert (Ht : fp_pow fpk one (bn_t bn) = one) by (apply Hp; simpl; auto).
  repeat (rewrite ?Hf, ?Hi, ?Hm, ?Ht).
  rewrite !Hp by (simpl; auto 10).
  repeat (rewrite ?Hf, ?Hi, ?Hm, ?Ht). reflexivity.
Qed.

End MillerPoint.

Lemma miller_loop_reaches_multiple_bn103 :
  let Q : EcPoint Fp2Ele := (El (0, 1), El (0, 2)) in
  let one := fp_one (tw_fpk (bn_tw bn103)) in
  exists _P _Q f' T',
    miller_loop bn103 _P _Q Q (one, Q) (slice_from_1 (format_b (bn_a bn103)))
    = Ok (f', T')
    /\ mul (bn_ec2 bn103) (bn_a bn103) Q = Ok T'.
Proof.
  intros Q one.
  exists (El (sconst 1), El (sconst 2)), (El (sconst 3), El (sconst 4)).
  do 2 eexists. split; [vm_compute; reflexivity|].
  eapply (miller_loop_reaches_multiple bn103
            (El (sconst 1), El (sconst 2)) (El (sconst 3), El (sconst 4)))
    with (f := one).
  vm_compute. reflexivity.
Defined.

Lemma finalexp_one_bn103 :
  _finalexp bn103 (fp_one (tw_fpk (bn_tw bn103)))
  = fp_one (tw_fpk (bn_tw bn103)).
Proof.
  apply (finalexp_one bn103); try (vm_compute; reflexivity).
  intros k Hk. simpl in Hk.
  repeat (destruct Hk as [<-|Hk]; [vm_compute; reflexivity|]).
  destruct Hk.
Defined.

(** ** BNBIDH.__init__: the derived constants *)

Lemma bn_order_squares (t : Z) :
  36 * t ^ 4 + 36 * t ^ 3 + 18 * t ^ 2 + 6 * t + 1
  = (6 * t ^ 2 + 3 * t) ^ 2 + (3 * t + 1) ^ 2.
Proof. ring. Qed.

(** Whatever the integer seed t, a constructed engine has n = p - 6t^2
    with 0 < n <= p, p = 1 modulo 6, the loop exponent 6t + 2, the field
    tower of modulus p, and a twisted curve whose coefficient a is the
    provider's zero. *)
Theorem init_constants (PrimeField12 : Z -> Tower) (t b : Z) (beta : Fp2Ele)
    (G1 : EcPoint Z) (G2 : EcPoint Fp2Ele) (bn : BNBIDH) :
  BNBIDH_init PrimeField12 t b beta G1 G2 = Ok bn ->
  bn_n bn = bn_p bn - 6 * t ^ 2
  /\ 0 < bn_n bn <= bn_p bn
  /\ bn_p bn mod 6 = 1
  /\ bn_a bn = 6 * t + 2
  /\ bn_tw bn = PrimeField12 (bn_p bn)
  /\ ec_a (bn_ec2 bn) = fp_zero (ec_fp (bn_ec2 bn))
  /\ ec_fp (bn_ec2 bn) = tw_fp2 (bn_tw bn).
Proof.
  unfold BNBIDH_init. destruct (negb (elem_eqb beta (1, 0))); [discriminate|].
  intros E. injection E as <-. unfold BNBIDH_build; cbn -[Z.pow Z.mul Z.add].
  split; [ring|]. split.
  - split.
    + rewrite bn_order_squares.
      assert (0 <= (6 * t ^ 2 + 3 * t) ^ 2) by (apply Z.pow_even_nonneg; now exists 1).
      assert (0 < (3 * t + 1) ^ 2) by (rewrite Z.pow_2_r; nia).
      lia.
    + assert (0 <= t ^ 2) by (apply Z.pow_even_nonneg; now exists 1). lia.
  - split; [|repeat split].
    replace (36 * t ^ 4 + 36 * t ^ 3 + 24 * t ^ 2 + 6 * t + 1)
      with (1 + (6 * t ^ 4 + 6 * t ^ 3 + 4 * t ^ 2 + t) * 6) by ring.
    rewrite Z_mod_plus_full. reflexivity.
Qed.

Lemma init_constants_t1 :
  exists bn,
    BNBIDH_init coordinatewise_tower 1 2 (1, 0) (pt 1 2) (El (0, 1), El (0, 2))
    = Ok bn
    /\ bn_n bn = bn_p bn - 6 * 1 ^ 2
    /\ 0 < bn_n bn <= bn_p bn
    /\ bn_p bn mod 6 = 1
    /\ bn_a bn = 6 * 1 + 2
    /\ bn_tw bn = coordinatewise_tower (bn_p bn)
    /\ ec_a (bn_ec2 bn) = fp_zero (ec_fp (bn_ec2 bn))
    /\ ec_fp (bn_ec2 bn) = tw_fp2 (bn_tw bn).
Proof.
  exists bn103. split; [reflexivity|].
  apply (init_constants coordinatewise_tower 1 2 (1, 0) (pt 1 2)
           (El (0, 1), El (0, 2)) bn103).
  reflexivity.
Defined.

(** ** ECDLP.kG *)

(** [kG] hands back the base point G itself for the scalars 0 and 1
    alike, and doubles it for the scalar 2. *)
Theorem kG_small_scalars (d : ECDLP) :
  kG d 0 = Ok (dl_G d) /\ kG d 1 = Ok (dl_G d)
  /\ kG d 2 = add (dl_ec d) (dl_G d) (dl_G d).
Proof.
  unfold kG, mul. cbn [format_b pos_bits slice_from_1 tl app mul_loop].
  split; [reflexivity|]. split; [reflexivity|].
  unfold mul_step. simpl Ascii.eqb.
  destruct (add (dl_ec d) (dl_G d) (dl_G d)); reflexivity.
Qed.
